(** Shallow embedding of the yatube [posts] application
    (models.py, utils.py, views.py) and of the parts of Django it relies on:
    the [Paginator] of [get_page_context], the [Meta.ordering] of the models,
    [get_or_create], [filter(...).delete()] and the [cache_page] cache. *)

From Stdlib Require Import String Ascii ZArith Arith Lia Bool List Permutation Sorted.
Import ListNotations.

(* ------------------------------------------------------------------ *)
(** * Data model (models.py) *)

Record User := mkUser { uid : nat; username : string }.

Record Post := mkPost {
  post_id : nat;
  text : string;
  pub_date : nat;           (* auto_now_add=True *)
  author : nat;             (* ForeignKey(User) *)
  group : option nat;       (* ForeignKey('Group', null=True) *)
  image : string            (* ImageField(blank=True): "" when empty *)
}.

Record Group := mkGroup { group_id : nat; title : string; slug : string; description : string }.

Record Comment := mkComment {
  comment_id : nat;
  c_post : nat;             (* ForeignKey('Post') *)
  c_author : nat;           (* ForeignKey(User) *)
  c_text : string;
  created : nat             (* CreatedModel.created, auto_now_add=True *)
}.

(** [Follow] declares no [unique_together] and no [UniqueConstraint]. *)
Record Follow := mkFollow { f_user : nat; f_author : nat }.

Record Store := mkStore {
  users : list User;
  groups : list Group;
  posts : list Post;
  comments : list Comment;
  follows : list Follow
}.

(** [Meta.ordering = ['-pub_date']] / [['-created']]: the rows come back
    sorted by the key, descending.  The database leaves the order of equal
    keys open; the model fixes one: among equal keys, rows later in the
    stored list (rows inserted later) come first. *)
Section Ordering.
Variable A : Type.
Variable key : A -> nat.

Fixpoint insert_desc (x : A) (l : list A) : list A :=
  match l with
  | [] => [x]
  | y :: r => if Nat.ltb (key y) (key x) then x :: y :: r else y :: insert_desc x r
  end.

Fixpoint order_desc (l : list A) : list A :=
  match l with
  | [] => []
  | x :: r => insert_desc x (order_desc r)
  end.
End Ordering.

Arguments insert_desc {A} key x l.
Arguments order_desc {A} key l.

Definition order_posts (l : list Post) : list Post := order_desc pub_date l.
Definition order_comments (l : list Comment) : list Comment := order_desc created l.

(* ------------------------------------------------------------------ *)
(** * django.core.paginator.Paginator, as used by [get_page_context]
    (orphans=0, allow_empty_first_page=True). *)

Definition NUMBER_OF_OUTPUT_POSTS : nat := 10.

Record PageObj (A : Type) := mkPage {
  object_list : list A;     (* self.object_list[bottom:top] *)
  number : nat;
  count : nat;              (* paginator.count *)
  has_next : bool;
  has_previous : bool
}.
Arguments mkPage {A}.
Arguments object_list {A}.
Arguments number {A}.
Arguments count {A}.
Arguments has_next {A}.
Arguments has_previous {A}.

Section Paginator.
Variable A : Type.
Variable per_page : nat.

(** [num_pages]: [hits = max(1, count - orphans)]; [ceil(hits / per_page)]. *)
Definition num_pages (l : list A) : nat :=
  let hits := Nat.max 1 (length l) in
  (hits + per_page - 1) / per_page.

Inductive InvalidPage := PageNotAnInteger | EmptyPage.

(** [validate_number]: the argument is [int(number)], [None] when that
    conversion fails (missing parameter or not an integer). *)
Definition validate_number (l : list A) (n : option Z) : InvalidPage + nat :=
  match n with
  | None => inl PageNotAnInteger
  | Some z =>
      if (z <? 1)%Z then inl EmptyPage
      else if (Z.of_nat (num_pages l) <? z)%Z then
        (if (z =? 1)%Z then inr 1 else inl EmptyPage)
      else inr (Z.to_nat z)
  end.

(** [page(number)] once the number is valid: [bottom = (number-1)*per_page],
    [top = bottom + per_page], clipped to [count]. *)
Definition page (l : list A) (n : nat) : PageObj A :=
  let bottom := (n - 1) * per_page in
  let top0 := bottom + per_page in
  let top := if Nat.leb (length l) top0 then length l else top0 in
  mkPage (firstn (top - bottom) (skipn bottom l)) n (length l)
         (Nat.ltb n (num_pages l)) (Nat.ltb 1 n).

(** [get_page]: a non-integer gives page 1, an out-of-range number the
    last page. *)
Definition get_page (l : list A) (n : option Z) : PageObj A :=
  match validate_number l n with
  | inl PageNotAnInteger => page l 1
  | inl EmptyPage => page l (num_pages l)
  | inr k => page l k
  end.
End Paginator.

Arguments num_pages {A} per_page l.
Arguments validate_number {A} per_page l n.
Arguments page {A} per_page l n.
Arguments get_page {A} per_page l n.

(** utils.get_page_context: the page argument is [request.GET.get('page')]
    after [int()]. *)
Definition get_page_context (ps : list Post) (page_arg : option Z) : PageObj Post :=
  get_page NUMBER_OF_OUTPUT_POSTS ps page_arg.

(** [Post.objects.all()] and friends, in [Meta.ordering]. *)
Definition all_posts (s : Store) : list Post := order_posts (posts s).

(* ------------------------------------------------------------------ *)
(** * Store access (the ORM queries the views issue) *)

Definition with_posts (s : Store) (ps : list Post) : Store :=
  mkStore (users s) (groups s) ps (comments s) (follows s).
Definition with_follows (s : Store) (fs : list Follow) : Store :=
  mkStore (users s) (groups s) (posts s) (comments s) fs.

(** [get_object_or_404(User, username=...)] *)
Definition find_user_by_username (s : Store) (n : string) : option User :=
  find (fun u => String.eqb (username u) n) (users s).

(** the [author__username] join: the username of the row a key points to *)
Definition username_of (s : Store) (id : nat) : option string :=
  option_map username (find (fun u => Nat.eqb (uid u) id) (users s)).

Definition opt_string_eqb (a b : option string) : bool :=
  match a, b with
  | Some x, Some y => String.eqb x y
  | None, None => true
  | _, _ => false
  end.

(** [filter(user=x)] with [x = None] is [user IS NULL]: no row of a
    non-null foreign key matches it. *)
Definition opt_nat_eqb (a b : option nat) : bool :=
  match a, b with
  | Some x, Some y => Nat.eqb x y
  | None, None => true
  | _, _ => false
  end.

(** [get_object_or_404(Post, pk=...)] *)
Definition find_post (s : Store) (pid : nat) : option Post :=
  find (fun p => Nat.eqb (post_id p) pid) (posts s).

Definition find_group_by_slug (s : Store) (sl : string) : option Group :=
  find (fun g => String.eqb (slug g) sl) (groups s).

(** [Follow.objects.filter(user=u, author=a)] *)
Definition follow_rows (u a : nat) (fs : list Follow) : list Follow :=
  filter (fun f => Nat.eqb (f_user f) u && Nat.eqb (f_author f) a) fs.

Definition count_pair (u a : nat) (s : Store) : nat := length (follow_rows u a (follows s)).

(** Inserting a row: the table checks its unique constraints, and [Follow]
    declares none, so the insert always goes through. *)
Definition insert_follow (s : Store) (f : Follow) : Store :=
  with_follows s (follows s ++ [f]).

Inductive GetError := MultipleObjectsReturned.

(** [Follow.objects.get_or_create(user=u, author=a)]: [get]; on
    [DoesNotExist], [create]. *)
Definition get_or_create (s : Store) (u a : nat) : GetError + Store :=
  match follow_rows u a (follows s) with
  | [] => inr (insert_follow s (mkFollow u a))
  | [_] => inr s
  | _ => inl MultipleObjectsReturned
  end.

(* ------------------------------------------------------------------ *)
(** * Views (views.py) *)

Inductive Response :=
| RRedirectLogin                          (* @login_required *)
| RNotFound                               (* Http404 *)
| RServerError                            (* uncaught exception *)
| RRedirectDetail (pid : nat)             (* redirect('posts:post_detail') *)
| RRedirectProfile (n : string)           (* redirect('posts:profile') *)
| RIndex (pg : PageObj Post)              (* posts/index.html *)
| RGroup (g : Group) (pg : PageObj Post)  (* posts/group_list.html *)
| RProfile (a : User) (following : bool) (pg : PageObj Post)
| RDetail (p : Post) (cs : list Comment)  (* posts/post_detail.html *)
| REditForm (p : Post)                    (* posts/create_post.html, is_edit *)
| RFollowIndex (pg : PageObj Post).

(** The request: [request.user.id] ([None] for AnonymousUser). *)
Definition Req := option nat.

Definition index (s : Store) (page_arg : option Z) : Response :=
  RIndex (get_page_context (all_posts s) page_arg).

Definition group_posts (s : Store) (sl : string) (page_arg : option Z) : Response :=
  match find_group_by_slug s sl with
  | None => RNotFound
  | Some g =>
      RGroup g (get_page_context
                  (order_posts (filter (fun p => opt_nat_eqb (group p) (Some (group_id g)))
                                       (posts s))) page_arg)
  end.

Definition profile (s : Store) (req : Req) (n : string) (page_arg : option Z) : Response :=
  match find_user_by_username s n with
  | None => RNotFound
  | Some a =>
      let following :=
        existsb (fun f => opt_nat_eqb (Some (f_user f)) req && Nat.eqb (f_author f) (uid a))
                (follows s) in
      RProfile a following
        (get_page_context (order_posts (filter (fun p => Nat.eqb (author p) (uid a)) (posts s)))
                          page_arg)
  end.

(** [comments = Comment.objects.all()] *)
Definition post_detail (s : Store) (pid : nat) : Response :=
  match find_post s pid with
  | None => RNotFound
  | Some p => RDetail p (order_comments (comments s))
  end.

Definition follow_index (s : Store) (req : Req) (page_arg : option Z) : Response :=
  match req with
  | None => RRedirectLogin
  | Some u =>
      let authors := map f_author (filter (fun f => Nat.eqb (f_user f) u) (follows s)) in
      RFollowIndex
        (get_page_context
           (order_posts (filter (fun p => existsb (Nat.eqb (author p)) authors) (posts s)))
           page_arg)
  end.

Definition profile_follow (s : Store) (req : Req) (n : string) : Response * Store :=
  match req with
  | None => (RRedirectLogin, s)
  | Some u =>
      match find_user_by_username s n with
      | None => (RNotFound, s)
      | Some a =>
          if negb (Nat.eqb (uid a) u) then
            match get_or_create s u (uid a) with
            | inl _ => (RServerError, s)
            | inr s' => (RRedirectProfile n, s')
            end
          else (RRedirectProfile n, s)
      end
  end.

(** [Follow.objects.filter(user=user, author__username=username).delete()] *)
Definition profile_unfollow (s : Store) (req : Req) (n : string) : Response * Store :=
  match req with
  | None => (RRedirectLogin, s)
  | Some u =>
      (RRedirectProfile n,
       with_follows s
         (filter (fun f => negb (Nat.eqb (f_user f) u
                                 && opt_string_eqb (username_of s (f_author f)) (Some n)))
                 (follows s)))
  end.

(** Modelled from the spec: [PostForm] (forms.py, not in the sources).
    The spec gives it the fields [text] (required, non-empty), [group]
    (optional) and [image] (optional).  The bound data is
    [request.POST or None] with [request.FILES or None]: [None] when the
    request carries no data, so the form is unbound and not valid. *)
Record PostFormData := mkPostFormData {
  fd_text : string;
  fd_group : option nat;
  fd_image : option string          (* uploaded file, if any *)
}.

Definition postform_is_valid (s : Store) (fd : PostFormData) : bool :=
  negb (String.eqb (fd_text fd) "")
  && match fd_group fd with
     | None => true
     | Some g => existsb (fun gr => Nat.eqb (group_id gr) g) (groups s)
     end.

(** [form.save()] on [instance=post]: the form writes its three fields
    into the instance (an image field left without upload keeps the stored
    file); [pub_date] has [auto_now_add=True], which only fills it on the
    first insert, so the saved row keeps the instance's value. *)
Definition postform_save (p : Post) (fd : PostFormData) : Post :=
  mkPost (post_id p) (fd_text fd) (pub_date p) (author p) (fd_group fd)
         (match fd_image fd with Some i => i | None => image p end).

(** [UPDATE ... WHERE id = pk] *)
Definition save_post (s : Store) (p : Post) : Store :=
  with_posts s (map (fun q => if Nat.eqb (post_id q) (post_id p) then p else q) (posts s)).

Definition post_edit (s : Store) (req : Req) (pid : nat) (data : option PostFormData)
  : Response * Store :=
  match req with
  | None => (RRedirectLogin, s)
  | Some u =>
      match find_post s pid with
      | None => (RNotFound, s)
      | Some p =>
          if negb (Nat.eqb u (author p)) then (RRedirectDetail pid, s)
          else
            match data with
            | Some fd =>
                if postform_is_valid s fd
                then (RRedirectDetail pid, save_post s (postform_save p fd))
                else (REditForm p, s)
            | None => (REditForm p, s)
            end
      end
  end.

(* ------------------------------------------------------------------ *)
(** * Request-level behaviour of the follow graph *)

(** Requests served one after another. *)
Inductive seq_step : Store -> Store -> Prop :=
| seq_follow s req n : seq_step s (snd (profile_follow s req n))
| seq_unfollow s req n : seq_step s (snd (profile_unfollow s req n))
| seq_edit s req pid d : seq_step s (snd (post_edit s req pid d)).

Inductive seq_reachable : Store -> Prop :=
| seq_init s : follows s = [] -> seq_reachable s
| seq_next s s' : seq_reachable s -> seq_step s s' -> seq_reachable s'.

(** Requests served concurrently.  [get_or_create] is two statements, a
    [SELECT] and, on [DoesNotExist], an [INSERT]; other requests may run
    between them.  [profile_unfollow] is a single [DELETE]. *)
Inductive Thread :=
| TFollow (u : nat) (n : string)          (* profile_follow, not started *)
| TCreate (u a : nat) (n : string)        (* get() raised DoesNotExist *)
| TUnfollow (u : nat) (n : string)
| TDone (r : Response).

Definition thread_step (s : Store) (t : Thread) : option (Thread * Store) :=
  match t with
  | TFollow u n =>
      match find_user_by_username s n with
      | None => Some (TDone RNotFound, s)
      | Some a =>
          if negb (Nat.eqb (uid a) u) then
            match follow_rows u (uid a) (follows s) with
            | [] => Some (TCreate u (uid a) n, s)
            | [_] => Some (TDone (RRedirectProfile n), s)
            | _ => Some (TDone RServerError, s)
            end
          else Some (TDone (RRedirectProfile n), s)
      end
  | TCreate u a n => Some (TDone (RRedirectProfile n), insert_follow s (mkFollow u a))
  | TUnfollow u n =>
      let (r, s') := profile_unfollow s (Some u) n in Some (TDone r, s')
  | TDone _ => None
  end.

Definition replace_nth {A} (i : nat) (x : A) (l : list A) : list A :=
  firstn i l ++ x :: skipn (S i) l.

Definition Config := (Store * list Thread)%type.

Inductive conc_step : Config -> Config -> Prop :=
| conc_run s ts i t t' s' :
    nth_error ts i = Some t ->
    thread_step s t = Some (t', s') ->
    conc_step (s, ts) (s', replace_nth i t' ts).

Inductive conc_reachable : Config -> Prop :=
| conc_init s ts : follows s = [] -> conc_reachable (s, ts)
| conc_next c c' : conc_reachable c -> conc_step c c' -> conc_reachable c'.

(* ------------------------------------------------------------------ *)
(** * [@cache_page(20, key_prefix='index_page')] on [index] *)

(** The cache key is built from the request URL and the headers the
    response varies on: the parsed [page] parameter and an opaque rest
    (raw URL text, [Cookie], ...). *)
Definition CacheKey := (option Z * nat)%type.

Definition key_eqb (k1 k2 : CacheKey) : bool :=
  match fst k1, fst k2 with
  | Some a, Some b => Z.eqb a b
  | None, None => true
  | _, _ => false
  end && Nat.eqb (snd k1) (snd k2).

Definition Cache := list (CacheKey * (Response * nat)).

Definition CACHE_TIMEOUT : nat := 20.

Definition cache_lookup (c : Cache) (k : CacheKey) : option (Response * nat) :=
  option_map snd (find (fun e => key_eqb (fst e) k) c).

(** [cache.get]: an entry whose expiry time is not in the future has
    expired. *)
Definition cache_get (c : Cache) (k : CacheKey) (now : nat) : option Response :=
  match cache_lookup c k with
  | Some (v, exp) => if Nat.leb exp now then None else Some v
  | None => None
  end.

Definition cache_set (c : Cache) (k : CacheKey) (v : Response) (exp : nat) : Cache :=
  (k, (v, exp)) :: filter (fun e => negb (key_eqb (fst e) k)) c.

Record World := mkWorld { store : Store; cache : Cache; clock : nat }.

Inductive Event :=
| EIndex (k : CacheKey)
| EGroup (sl : string) (page_arg : option Z)
| EProfile (req : Req) (n : string) (page_arg : option Z)
| EFollowIndex (req : Req) (page_arg : option Z)
| ECreatePost (p : Post)
| ETick (d : nat)
| EClear.                                   (* cache.clear() *)

Definition exec (w : World) (e : Event) : World * option Response :=
  match e with
  | EIndex k =>
      match cache_get (cache w) k (clock w) with
      | Some v => (w, Some v)
      | None =>
          let v := index (store w) (fst k) in
          (mkWorld (store w) (cache_set (cache w) k v (clock w + CACHE_TIMEOUT)) (clock w),
           Some v)
      end
  | EGroup sl pa => (w, Some (group_posts (store w) sl pa))
  | EProfile req n pa => (w, Some (profile (store w) req n pa))
  | EFollowIndex req pa => (w, Some (follow_index (store w) req pa))
  | ECreatePost p =>
      (mkWorld (with_posts (store w) (posts (store w) ++ [p])) (cache w) (clock w), None)
  | ETick d => (mkWorld (store w) (cache w) (clock w + d), None)
  | EClear => (mkWorld (store w) [] (clock w), None)
  end.

Fixpoint run (w : World) (tr : list Event) : World :=
  match tr with
  | [] => w
  | e :: tr' => run (fst (exec w e)) tr'
  end.

Fixpoint elapsed (tr : list Event) : nat :=
  match tr with
  | [] => 0
  | ETick d :: tr' => d + elapsed tr'
  | _ :: tr' => elapsed tr'
  end.

Definition is_clear (e : Event) : bool := match e with EClear => true | _ => false end.

Definition reads_key (k : CacheKey) (e : Event) : bool :=
  match e with EIndex k' => key_eqb k' k | _ => false end.

(** Every page of the feed, requested in order: pages [1 .. num_pages]. *)
Definition all_pages (l : list Post) : list Post :=
  concat (map (fun k => object_list (get_page_context l (Some (Z.of_nat k))))
              (seq 1 (num_pages NUMBER_OF_OUTPUT_POSTS l))).

Definition pub_date_desc (p q : Post) : Prop := pub_date q <= pub_date p.

(* ------------------------------------------------------------------ *)
(** * Creating posts and comments *)

Definition with_comments (s : Store) (cs : list Comment) : Store :=
  mkStore (users s) (groups s) (posts s) cs (follows s).

(** Response of [post_create]: [redirect('posts:profile', form.author)]
    names the author's profile. *)
Inductive CreateResponse :=
| CRedirectLogin
| CRedirectProfile (author_id : nat)
| CRender.                                 (* posts/create_post.html *)

(** [post_create]: [new_id] is the key the database assigns to the row and
    [now] the time [auto_now_add] stamps into [pub_date]. *)
Definition post_create (s : Store) (req : Req) (data : option PostFormData)
    (new_id now : nat) : CreateResponse * Store :=
  match req with
  | None => (CRedirectLogin, s)
  | Some u =>
      match data with
      | Some fd =>
          if postform_is_valid s fd then
            let p := mkPost new_id (fd_text fd) now u (fd_group fd)
                            (match fd_image fd with Some i => i | None => "" end) in
            (CRedirectProfile u, with_posts s (posts s ++ [p]))
          else (CRender, s)
      | None => (CRender, s)
      end
  end.

(** Modelled from the spec: [CommentForm] (forms.py, not in the sources).
    The spec gives it the one field [text], required and non-empty. *)
Definition commentform_is_valid (txt : string) : bool := negb (String.eqb txt "").

(** [add_comment]: [data] is [request.POST or None], the comment text. *)
Definition add_comment (s : Store) (req : Req) (pid : nat) (data : option string)
    (new_id now : nat) : Response * Store :=
  match req with
  | None => (RRedirectLogin, s)
  | Some u =>
      match find_post s pid with
      | None => (RNotFound, s)
      | Some p =>
          match data with
          | Some txt =>
              if commentform_is_valid txt then
                (RRedirectDetail pid,
                 with_comments s (comments s ++ [mkComment new_id (post_id p) u txt now]))
              else (RRedirectDetail pid, s)
          | None => (RRedirectDetail pid, s)
          end
      end
  end.

(** The posts of [follow_index], before pagination. *)
Definition follow_feed (s : Store) (u : nat) : list Post :=
  let authors := map f_author (filter (fun f => Nat.eqb (f_user f) u) (follows s)) in
  order_posts (filter (fun p => existsb (Nat.eqb (author p)) authors) (posts s)).

(* ------------------------------------------------------------------ *)
(** * Ordering lemmas *)

Section OrderingFacts.
Variable A : Type.
Variable key : A -> nat.
Let R (x y : A) : Prop := key y <= key x.

Lemma insert_desc_perm (x : A) (l : list A) : Permutation (x :: l) (insert_desc key x l).
Proof.
  induction l as [|y r IH]; simpl; [reflexivity|].
  destruct (Nat.ltb (key y) (key x)); [reflexivity|].
  rewrite perm_swap. constructor. exact IH.
Qed.

Lemma order_desc_perm (l : list A) : Permutation l (order_desc key l).
Proof.
  induction l as [|x r IH]; simpl; [reflexivity|].
  rewrite <- insert_desc_perm. constructor. exact IH.
Qed.

Lemma insert_desc_hdrel (a x : A) (l : list A) :
  HdRel R a l -> key x <= key a -> HdRel R a (insert_desc key x l).
Proof.
  intros H Hx. destruct l as [|y r]; simpl.
  - constructor. exact Hx.
  - destruct (Nat.ltb (key y) (key x)); constructor.
    + exact Hx.
    + inversion H; assumption.
Qed.

Lemma insert_desc_sorted (x : A) (l : list A) :
  Sorted R l -> Sorted R (insert_desc key x l).
Proof.
  induction l as [|y r IH]; intros Hs; simpl.
  - repeat constructor.
  - destruct (Nat.ltb (key y) (key x)) eqn:E.
    + apply Nat.ltb_lt in E. constructor; [exact Hs|]. constructor. unfold R. lia.
    + apply Nat.ltb_ge in E. inversion Hs; subst.
      constructor; [apply IH; assumption|].
      apply insert_desc_hdrel; assumption.
Qed.

Lemma order_desc_sorted (l : list A) : Sorted R (order_desc key l).
Proof.
  induction l as [|x r IH]; simpl; [constructor|].
  apply insert_desc_sorted. exact IH.
Qed.

(** An element strictly newer than every other one comes first. *)
Lemma order_desc_newest_first (p : A) (l : list A) :
  (forall q, In q l -> key q < key p) ->
  exists r, order_desc key (l ++ [p]) = p :: r.
Proof.
  induction l as [|x l IH]; intros H; simpl.
  - exists []. reflexivity.
  - destruct IH as [r Hr]; [intros q Hq; apply H; right; exact Hq|].
    rewrite Hr. simpl.
    assert (Hx : key x < key p) by (apply H; left; reflexivity).
    destruct (Nat.ltb (key p) (key x)) eqn:E.
    + apply Nat.ltb_lt in E. lia.
    + exists (insert_desc key x r). reflexivity.
Qed.
End OrderingFacts.

(* ------------------------------------------------------------------ *)
(** * Paginator lemmas *)

Section PaginatorFacts.
Variable A : Type.
Variable per_page : nat.

Lemma page_length (l : list A) (n : nat) :
  length (object_list (page per_page l n)) <= per_page.
Proof.
  unfold page; simpl.
  set (b := (n - 1) * per_page).
  destruct (Nat.leb (length l) (b + per_page)) eqn:E.
  - rewrite length_firstn. apply Nat.leb_le in E. lia.
  - rewrite length_firstn. lia.
Qed.

Lemma get_page_length (l : list A) (pa : option Z) :
  length (object_list (get_page per_page l pa)) <= per_page.
Proof.
  unfold get_page. destruct (validate_number per_page l pa) as [[|]|k];
    apply page_length.
Qed.

(** The clipped slice [l[bottom:top]] is the [per_page] items from [bottom]. *)
Lemma page_items (l : list A) (n : nat) :
  object_list (page per_page l n) = firstn per_page (skipn ((n - 1) * per_page) l).
Proof.
  unfold page; simpl.
  set (b := (n - 1) * per_page).
  destruct (Nat.leb (length l) (b + per_page)) eqn:E.
  - apply Nat.leb_le in E.
    rewrite firstn_all2 by (rewrite length_skipn; lia).
    rewrite firstn_all2 by (rewrite length_skipn; lia). reflexivity.
  - f_equal. lia.
Qed.

Lemma get_page_in_range (l : list A) (k : nat) :
  1 <= k <= num_pages per_page l ->
  get_page per_page l (Some (Z.of_nat k)) = page per_page l k.
Proof.
  intros Hk. unfold get_page, validate_number.
  destruct (Z.of_nat k <? 1)%Z eqn:E1; [apply Z.ltb_lt in E1; lia|].
  destruct (Z.of_nat (num_pages per_page l) <? Z.of_nat k)%Z eqn:E2;
    [apply Z.ltb_lt in E2; lia|].
  rewrite Nat2Z.id. reflexivity.
Qed.

Lemma concat_chunks (m : nat) (l : list A) :
  length l <= m * per_page ->
  concat (map (fun k => firstn per_page (skipn ((k - 1) * per_page) l)) (seq 1 m)) = l.
Proof.
  revert l. induction m as [|m IH]; intros l Hl.
  - simpl. destruct l; simpl in *; [reflexivity|lia].
  - simpl. rewrite <- seq_shift, map_map.
    rewrite (map_ext_in (fun k => firstn per_page (skipn ((S k - 1) * per_page) l))
                     (fun k => firstn per_page (skipn ((k - 1) * per_page) (skipn per_page l)))).
    + rewrite IH.
      * apply firstn_skipn.
      * rewrite length_skipn. lia.
    + intros k Hk. apply in_seq in Hk. rewrite skipn_skipn. f_equal. f_equal.
      destruct k as [|k]; [lia|]. simpl. rewrite Nat.sub_0_r. lia.
Qed.
End PaginatorFacts.

Lemma num_pages_covers (l : list Post) :
  length l <= num_pages NUMBER_OF_OUTPUT_POSTS l * NUMBER_OF_OUTPUT_POSTS.
Proof.
  unfold num_pages, NUMBER_OF_OUTPUT_POSTS.
  set (h := Nat.max 1 (length l)).
  assert (Hh : length l <= h) by (unfold h; lia).
  pose proof (Nat.div_mod_eq (h + 10 - 1) 10) as Hd.
  pose proof (Nat.mod_upper_bound (h + 10 - 1) 10 ltac:(lia)) as Hm.
  lia.
Qed.

(* ------------------------------------------------------------------ *)
(** * Feed composition *)

(** C8: whatever the source posts and whatever page is asked for,
    [get_page_context] returns at most 10 posts. *)
Theorem compose_feed_at_most_ten (ps : list Post) (page_arg : option Z) :
  length (object_list (get_page_context ps page_arg)) <= 10.
Proof.
  unfold get_page_context. apply get_page_length.
Qed.

Lemma all_pages_concat (l : list Post) : all_pages l = l.
Proof.
  unfold all_pages.
  rewrite (map_ext_in _ (fun k => firstn NUMBER_OF_OUTPUT_POSTS
                                   (skipn ((k - 1) * NUMBER_OF_OUTPUT_POSTS) l))).
  - apply concat_chunks, num_pages_covers.
  - intros k Hk. apply in_seq in Hk. unfold get_page_context.
    rewrite get_page_in_range by lia. apply page_items.
Qed.

(** C3: pages [1, 2, ..., num_pages] of the ordered posts, concatenated,
    are the ordered sequence itself: sorted by [pub_date] descending, a
    permutation of the input, and free of duplicates exactly when the input
    is. *)
Theorem pages_reconstruct_feed (ps : list Post) :
  all_pages (order_posts ps) = order_posts ps
  /\ Sorted pub_date_desc (all_pages (order_posts ps))
  /\ Permutation ps (all_pages (order_posts ps))
  /\ (NoDup ps <-> NoDup (all_pages (order_posts ps))).
Proof.
  rewrite all_pages_concat. unfold order_posts.
  pose proof (order_desc_perm Post pub_date ps) as Hp.
  split; [reflexivity|]. split; [|split].
  - exact (order_desc_sorted Post pub_date ps).
  - exact Hp.
  - split; intros H.
    + exact (Permutation_NoDup Hp H).
    + exact (Permutation_NoDup (Permutation_sym Hp) H).
Qed.

(* ------------------------------------------------------------------ *)
(** * Follow graph *)

(** At most one row per ordered pair, and no row from a user to the same user. *)
Definition follow_inv (s : Store) : Prop :=
  (forall u a, count_pair u a s <= 1)
  /\ (forall f, In f (follows s) -> f_user f <> f_author f).

Lemma follow_rows_app (u a : nat) (l1 l2 : list Follow) :
  follow_rows u a (l1 ++ l2) = follow_rows u a l1 ++ follow_rows u a l2.
Proof. unfold follow_rows. apply filter_app. Qed.

Lemma count_pair_insert (s : Store) (u a u' a' : nat) :
  count_pair u a (insert_follow s (mkFollow u' a'))
  = count_pair u a s + (if Nat.eqb u' u && Nat.eqb a' a then 1 else 0).
Proof.
  unfold count_pair, insert_follow, with_follows; simpl.
  rewrite follow_rows_app, length_app. unfold follow_rows at 2; simpl.
  destruct (Nat.eqb u' u && Nat.eqb a' a); reflexivity.
Qed.

Lemma follow_rows_filter_length (u a : nat) (g : Follow -> bool) (l : list Follow) :
  length (follow_rows u a (filter g l)) <= length (follow_rows u a l).
Proof.
  induction l as [|f l IH]; simpl; [lia|].
  unfold follow_rows in *.
  destruct (g f); simpl; destruct (Nat.eqb (f_user f) u && Nat.eqb (f_author f) a);
    simpl; lia.
Qed.

Lemma follow_rows_nil_iff (u a : nat) (l : list Follow) :
  follow_rows u a l = [] <-> (forall f, In f l -> ~ (f_user f = u /\ f_author f = a)).
Proof.
  unfold follow_rows. split.
  - intros H f Hf [E1 E2].
    assert (Hin : In f (filter (fun f => Nat.eqb (f_user f) u && Nat.eqb (f_author f) a) l)).
    { apply filter_In. split; [exact Hf|]. rewrite E1, E2, !Nat.eqb_refl. reflexivity. }
    rewrite H in Hin. destruct Hin.
  - induction l as [|f l IH]; intros H; simpl; [reflexivity|].
    destruct (Nat.eqb (f_user f) u) eqn:E1; destruct (Nat.eqb (f_author f) a) eqn:E2; simpl;
      try (apply IH; intros g Hg; apply H; right; exact Hg).
    apply Nat.eqb_eq in E1, E2. exfalso. apply (H f); [left; reflexivity|split; assumption].
Qed.

Lemma profile_follow_users (s : Store) (req : Req) (n : string) :
  users (snd (profile_follow s req n)) = users s.
Proof.
  unfold profile_follow, get_or_create.
  destruct req as [u|]; [|reflexivity].
  destruct (find_user_by_username s n) as [a|]; [|reflexivity].
  destruct (negb (Nat.eqb (uid a) u)); [|reflexivity].
  destruct (follow_rows u (uid a) (follows s)) as [|? [|? ?]]; reflexivity.
Qed.

Lemma profile_follow_inv (s : Store) (req : Req) (n : string) :
  follow_inv s -> follow_inv (snd (profile_follow s req n)).
Proof.
  intros [Hc Hs]. unfold profile_follow, get_or_create.
  destruct req as [u|]; [|split; assumption].
  destruct (find_user_by_username s n) as [a|]; [|split; assumption].
  destruct (negb (Nat.eqb (uid a) u)) eqn:Ea; [|split; assumption].
  apply negb_true_iff, Nat.eqb_neq in Ea.
  destruct (follow_rows u (uid a) (follows s)) as [|? [|? ?]] eqn:Er;
    try (split; assumption).
  simpl. split.
  - intros u' a'. rewrite count_pair_insert.
    destruct (Nat.eqb u u' && Nat.eqb (uid a) a') eqn:E; [|rewrite Nat.add_0_r; apply Hc].
    apply andb_true_iff in E as [E1 E2]. apply Nat.eqb_eq in E1, E2. subst.
    unfold count_pair. rewrite Er. simpl. lia.
  - intros f Hf. simpl in Hf. apply in_app_or in Hf as [Hf|[<-|[]]].
    + apply Hs, Hf.
    + simpl. intros E. apply Ea. symmetry. exact E.
Qed.

Lemma profile_unfollow_inv (s : Store) (req : Req) (n : string) :
  follow_inv s -> follow_inv (snd (profile_unfollow s req n)).
Proof.
  intros [Hc Hs]. unfold profile_unfollow.
  destruct req as [u|]; [|split; assumption].
  simpl. split.
  - intros u' a'. unfold count_pair; simpl.
    etransitivity; [apply follow_rows_filter_length|]. apply Hc.
  - intros f Hf. apply filter_In in Hf as [Hf _]. apply Hs, Hf.
Qed.

Lemma post_edit_follows (s : Store) (req : Req) (pid : nat) (d : option PostFormData) :
  follows (snd (post_edit s req pid d)) = follows s.
Proof.
  unfold post_edit.
  destruct req as [u|]; [|reflexivity].
  destruct (find_post s pid) as [p|]; [|reflexivity].
  destruct (negb (Nat.eqb u (author p))); [reflexivity|].
  destruct d as [fd|]; [|reflexivity].
  destruct (postform_is_valid s fd); reflexivity.
Qed.

Lemma seq_reachable_inv (s : Store) : seq_reachable s -> follow_inv s.
Proof.
  induction 1 as [s Hf|s s' _ IH Hstep].
  - split.
    + intros u a. unfold count_pair. rewrite Hf. simpl. lia.
    + intros f Hin. rewrite Hf in Hin. destruct Hin.
  - destruct Hstep.
    + apply profile_follow_inv, IH.
    + apply profile_unfollow_inv, IH.
    + destruct IH as [Hc Hs]. split.
      * intros u a. unfold count_pair. rewrite post_edit_follows. apply Hc.
      * intros f. rewrite post_edit_follows. apply Hs.
Qed.

(** One follow request on a store satisfying the invariant leaves exactly
    one row for the pair. *)
Lemma profile_follow_once (s : Store) (u : nat) (n : string) (a : User) :
  follow_inv s -> find_user_by_username s n = Some a -> uid a <> u ->
  count_pair u (uid a) (snd (profile_follow s (Some u) n)) = 1.
Proof.
  intros [Hc _] Hfind Hne. unfold profile_follow. rewrite Hfind.
  assert (E : negb (Nat.eqb (uid a) u) = true) by (apply negb_true_iff, Nat.eqb_neq; exact Hne).
  rewrite E. unfold get_or_create.
  specialize (Hc u (uid a)). unfold count_pair in *.
  destruct (follow_rows u (uid a) (follows s)) as [|f [|f' r]] eqn:Er; simpl.
  - change (count_pair u (uid a) (insert_follow s (mkFollow u (uid a))) = 1).
    rewrite count_pair_insert. unfold count_pair. rewrite Er, !Nat.eqb_refl. reflexivity.
  - rewrite Er. reflexivity.
  - simpl in Hc. lia.
Qed.

Lemma filter_keeps_all {A} (g : A -> bool) (l : list A) :
  (forall x, In x l -> g x = true) -> filter g l = l.
Proof.
  induction l as [|x l IH]; intros H; simpl; [reflexivity|].
  rewrite (H x (or_introl eq_refl)). f_equal. apply IH. intros y Hy. apply H. right. exact Hy.
Qed.

Lemma with_follows_same (s : Store) : with_follows s (follows s) = s.
Proof. destruct s; reflexivity. Qed.

Lemma unique_username (l : list User) (x y : User) :
  NoDup (map username l) -> In x l -> In y l -> username x = username y -> x = y.
Proof.
  induction l as [|z l IH]; intros Hnd Hx Hy E; [destruct Hx|].
  simpl in Hnd. inversion Hnd as [|? ? Hnot Hnd']; subst.
  destruct Hx as [<-|Hx]; destruct Hy as [<-|Hy]; try reflexivity.
  - exfalso. apply Hnot. rewrite E. apply in_map, Hy.
  - exfalso. apply Hnot. rewrite <- E. apply in_map, Hx.
  - apply IH; assumption.
Qed.

(** The [author__username] join resolves to the user found by username. *)
Lemma username_of_lookup (s : Store) (x : nat) (n : string) (a : User) :
  NoDup (map username (users s)) ->
  find_user_by_username s n = Some a ->
  username_of s x = Some n -> x = uid a.
Proof.
  intros Hnd Ha Hx. unfold username_of in Hx.
  destruct (find (fun u => Nat.eqb (uid u) x) (users s)) as [y|] eqn:Ey; [|discriminate].
  simpl in Hx. injection Hx as Hx.
  apply find_some in Ey as [Hy Ey]. apply Nat.eqb_eq in Ey.
  unfold find_user_by_username in Ha. apply find_some in Ha as [Ha Ea].
  apply String.eqb_eq in Ea.
  rewrite <- Ey. f_equal. apply (unique_username (users s)); try assumption. congruence.
Qed.

(** C6: on any store reached by serving requests one at a time, following
    an author twice leaves exactly one edge, and following oneself leaves
    none. *)
Theorem follow_idempotent_no_self (s : Store) (u : nat) (n : string) (a : User) :
  seq_reachable s -> find_user_by_username s n = Some a ->
  (uid a <> u ->
   count_pair u (uid a) (snd (profile_follow (snd (profile_follow s (Some u) n)) (Some u) n)) = 1)
  /\ (uid a = u -> count_pair u u (snd (profile_follow s (Some u) n)) = 0).
Proof.
  intros Hr Hfind. pose proof (seq_reachable_inv s Hr) as Hinv. split.
  - intros Hne. apply profile_follow_once; [apply profile_follow_inv, Hinv| |exact Hne].
    unfold find_user_by_username. rewrite profile_follow_users. exact Hfind.
  - intros <-. unfold profile_follow. rewrite Hfind, Nat.eqb_refl. simpl.
    unfold count_pair. destruct Hinv as [_ Hs].
    assert (E : follow_rows (uid a) (uid a) (follows s) = []).
    { apply follow_rows_nil_iff. intros f Hf [E1 E2]. apply (Hs f Hf). congruence. }
    rewrite E. reflexivity.
Qed.

(** C9: unfollowing an author one does not follow answers with the
    redirect to the profile and leaves the store unchanged. *)
Theorem unfollow_missing_noop (s : Store) (u : nat) (n : string) (a : User) :
  NoDup (map username (users s)) ->
  find_user_by_username s n = Some a ->
  count_pair u (uid a) s = 0 ->
  profile_unfollow s (Some u) n = (RRedirectProfile n, s).
Proof.
  intros Hnd Ha H0. unfold profile_unfollow.
  rewrite filter_keeps_all; [rewrite with_follows_same; reflexivity|].
  intros f Hf. apply negb_true_iff.
  destruct (Nat.eqb (f_user f) u) eqn:E1; [|reflexivity]. simpl.
  destruct (username_of s (f_author f)) as [m|] eqn:E2; [|reflexivity]. simpl.
  destruct (String.eqb m n) eqn:E3; [|reflexivity].
  apply String.eqb_eq in E3. subst m.
  pose proof (username_of_lookup s (f_author f) n a Hnd Ha E2) as Ea.
  unfold count_pair in H0. apply length_zero_iff_nil in H0.
  apply Nat.eqb_eq in E1.
  exfalso. apply (proj1 (follow_rows_nil_iff u (uid a) (follows s)) H0 f Hf). split; assumption.
Qed.

(** Two users, no follow rows. *)
Definition s_two_users : Store :=
  mkStore [mkUser 1 "leo"; mkUser 2 "tolstoy"] [] [] [] [].

(** Two concurrent [profile_follow] requests of user 1 for "tolstoy": both
    [SELECT]s run before either [INSERT]. *)
Lemma interleaved_follow_duplicates :
  exists c, conc_reachable c /\ count_pair 1 2 (fst c) = 2.
Proof.
  set (t := TFollow 1 "tolstoy").
  set (tc := TCreate 1 2 "tolstoy").
  set (td := TDone (RRedirectProfile "tolstoy")).
  set (s1 := insert_follow s_two_users (mkFollow 1 2)).
  set (s2 := insert_follow s1 (mkFollow 1 2)).
  assert (H0 : conc_reachable (s_two_users, [t; t])) by (constructor; reflexivity).
  assert (H1 : conc_reachable (s_two_users, replace_nth 0 tc [t; t])).
  { eapply conc_next; [exact H0|]. apply conc_run with (t := t); reflexivity. }
  assert (H2 : conc_reachable (s_two_users, replace_nth 1 tc (replace_nth 0 tc [t; t]))).
  { eapply conc_next; [exact H1|]. apply conc_run with (t := t); reflexivity. }
  assert (H3 : conc_reachable
                 (s1, replace_nth 0 td (replace_nth 1 tc (replace_nth 0 tc [t; t])))).
  { eapply conc_next; [exact H2|]. apply conc_run with (t := tc); reflexivity. }
  assert (H4 : conc_reachable
                 (s2, replace_nth 1 td
                        (replace_nth 0 td (replace_nth 1 tc (replace_nth 0 tc [t; t]))))).
  { eapply conc_next; [exact H3|]. apply conc_run with (t := tc); reflexivity. }
  eexists. split; [exact H4|]. reflexivity.
Qed.

(** C2 (as the code has it): the [Follow] table accepts a second row for a
    pair; the sequential request handling keeps at most one row per pair;
    concurrent requests can leave two. *)
Theorem follow_pair_unique_only_sequential :
  (forall s u a, count_pair u a (insert_follow s (mkFollow u a)) = S (count_pair u a s))
  /\ (forall s, seq_reachable s -> forall u a, count_pair u a s <= 1)
  /\ (exists c, conc_reachable c /\ count_pair 1 2 (fst c) = 2).
Proof.
  split; [|split].
  - intros s u a. rewrite count_pair_insert, !Nat.eqb_refl. simpl. lia.
  - intros s Hr. apply (seq_reachable_inv s Hr).
  - exact interleaved_follow_duplicates.
Qed.

Lemma follow_pair_unique_only_sequential_witness :
  let s1 := snd (profile_follow s_two_users (Some 1) "tolstoy") in
  let s2 := snd (profile_follow s1 (Some 1) "tolstoy") in
  seq_reachable s2 /\ count_pair 1 2 s1 = 1 /\ count_pair 1 2 s2 <= 1.
Proof.
  intros s1 s2.
  assert (Hr : seq_reachable s2).
  { apply (seq_next s1 s2); [|apply seq_follow].
    apply (seq_next s_two_users s1); [|apply seq_follow].
    apply seq_init. reflexivity. }
  split; [exact Hr|]. split; [reflexivity|].
  apply (proj1 (proj2 follow_pair_unique_only_sequential)). exact Hr.
Defined.

(** C2 as stated fails: some reachable state holds two rows for (1, 2). *)
Lemma follow_pair_not_store_unique :
  ~ (forall c, conc_reachable c -> forall u a, count_pair u a (fst c) <= 1).
Proof.
  intros H. destruct interleaved_follow_duplicates as [c [Hc E]].
  specialize (H c Hc 1 2). lia.
Qed.

(* ------------------------------------------------------------------ *)
(** * Editing posts *)

(** C5: an authenticated user who is not the author is redirected to the
    post page and the store is left as it was. *)
Theorem post_edit_non_author_denied (s : Store) (u pid : nat) (d : option PostFormData) (p : Post) :
  find_post s pid = Some p -> u <> author p ->
  post_edit s (Some u) pid d = (RRedirectDetail pid, s).
Proof.
  intros Hp Hne. unfold post_edit. rewrite Hp.
  assert (E : Nat.eqb u (author p) = false) by (apply Nat.eqb_neq; exact Hne).
  rewrite E. reflexivity.
Qed.

Lemma find_post_save (l : list Post) (pid : nat) (p p' : Post) :
  find (fun q => Nat.eqb (post_id q) pid) l = Some p -> post_id p' = pid ->
  find (fun q => Nat.eqb (post_id q) pid)
       (map (fun q => if Nat.eqb (post_id q) pid then p' else q) l) = Some p'.
Proof.
  intros Hf Hid. induction l as [|q l IH]; simpl in *; [discriminate|].
  destruct (Nat.eqb (post_id q) pid) eqn:E.
  - rewrite Hid, Nat.eqb_refl. reflexivity.
  - rewrite E. apply IH, Hf.
Qed.

(** C7: whatever [post_edit] does to an existing post, the row it leaves
    under that id has the same id, author and publication date. *)
Theorem post_edit_keeps_author_pub_date
    (s s' : Store) (u pid : nat) (d : option PostFormData) (p : Post) (r : Response) :
  find_post s pid = Some p -> post_edit s (Some u) pid d = (r, s') ->
  exists p', find_post s' pid = Some p'
             /\ post_id p' = post_id p /\ author p' = author p /\ pub_date p' = pub_date p.
Proof.
  intros Hp He. unfold post_edit in He. rewrite Hp in He.
  assert (Hid : post_id p = pid).
  { unfold find_post in Hp. apply find_some in Hp as [_ Hp]. apply Nat.eqb_eq, Hp. }
  destruct (negb (Nat.eqb u (author p))).
  { injection He as _ <-. exists p. auto. }
  destruct d as [fd|]; [destruct (postform_is_valid s fd)|];
    injection He as _ <-; [|exists p; auto|exists p; auto].
  exists (postform_save p fd). split; [|simpl; auto].
  unfold find_post, save_post, with_posts; simpl. rewrite Hid.
  apply (find_post_save (posts s) pid p); [exact Hp|]. simpl. exact Hid.
Qed.

(* ------------------------------------------------------------------ *)
(** * Profile and post pages *)

(** C10: for an anonymous visitor ([request.user.id] is [None]) the
    profile of any existing author renders, with [following] false. *)
Theorem profile_anonymous_not_following (s : Store) (n : string) (pa : option Z) (a : User) :
  find_user_by_username s n = Some a ->
  profile s None n pa
  = RProfile a false
      (get_page_context (order_posts (filter (fun p => Nat.eqb (author p) (uid a)) (posts s))) pa).
Proof.
  intros Ha. unfold profile. rewrite Ha. f_equal.
  induction (follows s) as [|f fs IH]; simpl; [reflexivity|]. exact IH.
Qed.

(** Two posts, one comment on each. *)
Definition post_1 : Post := mkPost 1 "first" 10 1 None "".
Definition post_2 : Post := mkPost 2 "second" 11 1 None "".
Definition comment_1 : Comment := mkComment 1 1 1 "on the first" 20.
Definition comment_2 : Comment := mkComment 2 2 1 "on the second" 21.
Definition s_two_posts : Store :=
  mkStore [mkUser 1 "leo"] [] [post_1; post_2] [comment_1; comment_2] [].

(** C1: the page of post 1 lists the comment written on post 2. *)
Theorem post_detail_lists_all_comments :
  post_detail s_two_posts 1 = RDetail post_1 [comment_2; comment_1]
  /\ c_post comment_2 = 2.
Proof. split; reflexivity. Qed.

(* ------------------------------------------------------------------ *)
(** * The index cache *)

Lemma key_eqb_eq (k1 k2 : CacheKey) : key_eqb k1 k2 = true <-> k1 = k2.
Proof.
  destruct k1 as [o1 x], k2 as [o2 y]. unfold key_eqb; simpl.
  rewrite andb_true_iff, Nat.eqb_eq.
  destruct o1 as [a|], o2 as [b|]; rewrite ?Z.eqb_eq; split; intros H.
  - destruct H as [-> ->]. reflexivity.
  - injection H as -> ->. auto.
  - destruct H as [H _]. discriminate H.
  - discriminate H.
  - destruct H as [H _]. discriminate H.
  - discriminate H.
  - destruct H as [_ ->]. reflexivity.
  - injection H as ->. auto.
Qed.

Lemma key_eqb_refl (k : CacheKey) : key_eqb k k = true.
Proof. apply key_eqb_eq. reflexivity. Qed.

Lemma find_filter_other {A} (g h : A -> bool) (l : list A) :
  (forall x, g x = true -> h x = true) -> find g (filter h l) = find g l.
Proof.
  intros H. induction l as [|x l IH]; simpl; [reflexivity|].
  destruct (g x) eqn:Eg.
  - rewrite (H x Eg). simpl. rewrite Eg. reflexivity.
  - destruct (h x); simpl; [rewrite Eg|]; exact IH.
Qed.

Lemma cache_lookup_set (c : Cache) (k k' : CacheKey) (v : Response) (e : nat) :
  cache_lookup (cache_set c k v e) k'
  = if key_eqb k k' then Some (v, e) else cache_lookup c k'.
Proof.
  unfold cache_lookup, cache_set. simpl.
  destruct (key_eqb k k') eqn:E; [reflexivity|].
  rewrite find_filter_other; [reflexivity|].
  intros x Hx. apply key_eqb_eq in Hx. apply negb_true_iff.
  destruct (key_eqb (fst x) k) eqn:E'; [|reflexivity].
  apply key_eqb_eq in E'. rewrite Hx in E'. rewrite E' in E. rewrite key_eqb_refl in E.
  discriminate.
Qed.

Lemma run_clock (w : World) (tr : list Event) : clock (run w tr) = clock w + elapsed tr.
Proof.
  revert w. induction tr as [|e tr IH]; intros w; simpl; [lia|].
  rewrite IH. destruct e; simpl; try lia.
  destruct (cache_get (cache w) k (clock w)); simpl; lia.
Qed.

(** Without a read of [k], the entry for [k] is untouched, unless the
    cache is cleared. *)
Lemma run_lookup_unread (w : World) (tr : list Event) (k : CacheKey) :
  (forall e, In e tr -> reads_key k e = false) ->
  cache_lookup (cache (run w tr)) k
  = if existsb is_clear tr then None else cache_lookup (cache w) k.
Proof.
  revert w. induction tr as [|e tr IH]; intros w H; simpl; [reflexivity|].
  rewrite IH by (intros e' He'; apply H; right; exact He').
  assert (He : reads_key k e = false) by (apply H; left; reflexivity).
  destruct e; simpl; try reflexivity.
  - destruct (cache_get (cache w) k0 (clock w)); simpl; [reflexivity|].
    rewrite cache_lookup_set. simpl in He. rewrite He. reflexivity.
  - destruct (existsb is_clear tr); reflexivity.
Qed.

(** Without a clear, an entry that has not expired stays in place. *)
Lemma run_lookup_valid (w : World) (tr : list Event) (k : CacheKey) (v : Response) (x : nat) :
  (forall e, In e tr -> e <> EClear) ->
  cache_lookup (cache w) k = Some (v, x) -> clock w + elapsed tr < x ->
  cache_lookup (cache (run w tr)) k = Some (v, x).
Proof.
  revert w. induction tr as [|e tr IH]; intros w Hnc Hl Ht; simpl; [exact Hl|].
  assert (Hne : e <> EClear) by (apply Hnc; left; reflexivity).
  apply IH; [intros e' He'; apply Hnc; right; exact He'| |].
  - destruct e; simpl; try exact Hl; [|congruence].
    destruct (cache_get (cache w) k0 (clock w)) eqn:Eg; simpl; [exact Hl|].
    rewrite cache_lookup_set. destruct (key_eqb k0 k) eqn:Ek; [|exact Hl].
    apply key_eqb_eq in Ek. subst k0. unfold cache_get in Eg. rewrite Hl in Eg.
    destruct (Nat.leb x (clock w)) eqn:El; [|discriminate].
    apply Nat.leb_le in El. simpl in Ht. lia.
  - destruct e; simpl in *; try lia.
    destruct (cache_get (cache w) k0 (clock w)); simpl; lia.
Qed.

Lemma index_first_page_newest (s : Store) (p : Post) :
  (forall q, In q (posts s) -> pub_date q < pub_date p) ->
  exists pg, index (with_posts s (posts s ++ [p])) None = RIndex pg /\ In p (object_list pg).
Proof.
  intros H. eexists. split; [reflexivity|].
  unfold get_page_context, all_posts, order_posts, with_posts. cbn [posts].
  destruct (order_desc_newest_first Post pub_date p (posts s) H) as [r Hr].
  rewrite Hr. change (In p (object_list (page NUMBER_OF_OUTPUT_POSTS (p :: r) 1))).
  rewrite page_items. simpl. left. reflexivity.
Qed.

Lemma run_app (w : World) (tr1 tr2 : list Event) : run w (tr1 ++ tr2) = run (run w tr1) tr2.
Proof. revert w. induction tr1 as [|e tr1 IH]; intros w; simpl; [reflexivity|]. apply IH. Qed.

Lemma elapsed_app (tr1 tr2 : list Event) : elapsed (tr1 ++ tr2) = elapsed tr1 + elapsed tr2.
Proof. induction tr1 as [|e tr1 IH]; simpl; [reflexivity|]. destruct e; simpl; lia. Qed.

(** C4: once the index page for a key is computed (a cache miss), reads of
    that key return the same response for the next 20 time units whatever
    posts are created, unless the cache is cleared; after such a window
    ([tr1], reads of the key allowed), the first read of the key once 20
    units have passed, or once the cache has been cleared, recomputes the
    page from the current store, whose first page shows a post newer than
    all others; the group,
    profile and follow pages are computed from the store and leave the
    cache alone. *)
Theorem index_cache_window (w w' : World) (k : CacheKey) (v : Response) :
  cache_get (cache w) k (clock w) = None ->
  exec w (EIndex k) = (w', Some v) ->
  (forall tr, (forall e, In e tr -> e <> EClear) -> elapsed tr < CACHE_TIMEOUT ->
     snd (exec (run w' tr) (EIndex k)) = Some v)
  /\ (forall tr1 tr2,
       (forall e, In e tr1 -> e <> EClear) -> elapsed tr1 < CACHE_TIMEOUT ->
       (forall e, In e tr2 -> reads_key k e = false) ->
       CACHE_TIMEOUT <= elapsed (tr1 ++ tr2) \/ In EClear tr2 ->
       snd (exec (run w' (tr1 ++ tr2)) (EIndex k))
       = Some (index (store (run w' (tr1 ++ tr2))) (fst k)))
  /\ (forall s p, (forall q, In q (posts s) -> pub_date q < pub_date p) ->
       exists pg, index (with_posts s (posts s ++ [p])) None = RIndex pg
                  /\ In p (object_list pg))
  /\ (forall w0 sl req n pa,
        exec w0 (EGroup sl pa) = (w0, Some (group_posts (store w0) sl pa))
        /\ exec w0 (EProfile req n pa) = (w0, Some (profile (store w0) req n pa))
        /\ exec w0 (EFollowIndex req pa) = (w0, Some (follow_index (store w0) req pa))).
Proof.
  intros Hmiss Hexec. simpl in Hexec. rewrite Hmiss in Hexec.
  injection Hexec as <- <-.
  set (w' := mkWorld (store w) (cache_set (cache w) k (index (store w) (fst k))
                                          (clock w + CACHE_TIMEOUT)) (clock w)).
  assert (Hl : cache_lookup (cache w') k
               = Some (index (store w) (fst k), clock w + CACHE_TIMEOUT)).
  { simpl. rewrite cache_lookup_set, key_eqb_refl. reflexivity. }
  split; [|split; [|split]].
  - intros tr Hnc Ht. simpl.
    assert (Hr : cache_lookup (cache (run w' tr)) k
                 = Some (index (store w) (fst k), clock w + CACHE_TIMEOUT)).
    { apply run_lookup_valid; [exact Hnc|exact Hl|]. simpl. lia. }
    unfold cache_get. rewrite Hr, run_clock. simpl.
    destruct (Nat.leb (clock w + CACHE_TIMEOUT) (clock w + elapsed tr)) eqn:E.
    + apply Nat.leb_le in E. lia.
    + reflexivity.
  - intros tr1 tr2 Hnc Ht1 Hnr Hcase. simpl.
    rewrite run_app in *. rewrite elapsed_app in Hcase.
    assert (Hr1 : cache_lookup (cache (run w' tr1)) k
                  = Some (index (store w) (fst k), clock w + CACHE_TIMEOUT)).
    { apply run_lookup_valid; [exact Hnc|exact Hl|]. simpl. lia. }
    assert (Hg : cache_get (cache (run (run w' tr1) tr2)) k (clock (run (run w' tr1) tr2)) = None).
    { unfold cache_get. rewrite run_lookup_unread by exact Hnr.
      destruct (existsb is_clear tr2) eqn:Ec; [reflexivity|].
      rewrite Hr1, !run_clock. simpl.
      destruct Hcase as [Ht|Hc].
      - replace (Nat.leb (clock w + CACHE_TIMEOUT) (clock w + elapsed tr1 + elapsed tr2))
          with true; [reflexivity|]. symmetry. apply Nat.leb_le. lia.
      - exfalso. assert (existsb is_clear tr2 = true)
          by (apply existsb_exists; exists EClear; auto).
        congruence. }
    rewrite Hg. reflexivity.
  - apply index_first_page_newest.
  - intros w0 sl req n pa. repeat split.
Qed.

Lemma index_cache_window_witness :
  cache_get [] (None, 0) 0 = None
  /\ snd (exec (run (fst (exec (mkWorld s_two_posts [] 0) (EIndex (None, 0))))
                    [ECreatePost (mkPost 3 "third" 12 1 None ""); ETick 19])
               (EIndex (None, 0)))
     = Some (index s_two_posts None)
  /\ snd (exec (run (fst (exec (mkWorld s_two_posts [] 0) (EIndex (None, 0))))
                    ([ECreatePost (mkPost 3 "third" 12 1 None ""); EIndex (None, 0)] ++ [EClear]))
               (EIndex (None, 0)))
     = Some (index (with_posts s_two_posts (posts s_two_posts ++ [(mkPost 3 "third" 12 1 None "")])) None).
Proof.
  pose proof (index_cache_window (mkWorld s_two_posts [] 0)
                (fst (exec (mkWorld s_two_posts [] 0) (EIndex (None, 0))))
                (None, 0) (index s_two_posts None) eq_refl eq_refl) as H.
  split; [reflexivity|]. split.
  - apply (proj1 H).
    + intros e [<-|[<-|[]]]; discriminate.
    + simpl. unfold CACHE_TIMEOUT. lia.
  - apply (proj1 (proj2 H)).
    + intros e [<-|[<-|[]]]; discriminate.
    + simpl. unfold CACHE_TIMEOUT. lia.
    + intros e [<-|[]]. reflexivity.
    + right. left. reflexivity.
Defined.

(* ------------------------------------------------------------------ *)
(** * Instances *)

Lemma follow_idempotent_no_self_witness :
  seq_reachable s_two_users
  /\ find_user_by_username s_two_users "tolstoy" = Some (mkUser 2 "tolstoy")
  /\ count_pair 1 2 (snd (profile_follow (snd (profile_follow s_two_users (Some 1) "tolstoy"))
                                         (Some 1) "tolstoy")) = 1.
Proof.
  assert (Hr : seq_reachable s_two_users) by (apply seq_init; reflexivity).
  split; [exact Hr|]. split; [reflexivity|].
  apply (proj1 (follow_idempotent_no_self s_two_users 1 "tolstoy" (mkUser 2 "tolstoy")
                  Hr eq_refl)).
  simpl. lia.
Defined.

Lemma unfollow_missing_noop_witness :
  NoDup (map username (users s_two_users))
  /\ find_user_by_username s_two_users "tolstoy" = Some (mkUser 2 "tolstoy")
  /\ count_pair 1 2 s_two_users = 0
  /\ profile_unfollow s_two_users (Some 1) "tolstoy" = (RRedirectProfile "tolstoy", s_two_users).
Proof.
  assert (Hnd : NoDup (map username (users s_two_users))).
  { simpl. constructor; [simpl; intros [H|[]]; discriminate H|].
    constructor; [intros []|constructor]. }
  split; [exact Hnd|]. split; [reflexivity|]. split; [reflexivity|].
  exact (unfollow_missing_noop s_two_users 1 "tolstoy" (mkUser 2 "tolstoy") Hnd eq_refl eq_refl).
Defined.

Lemma post_edit_non_author_denied_witness :
  find_post s_two_posts 1 = Some post_1 /\ 2 <> author post_1
  /\ post_edit s_two_posts (Some 2) 1 (Some (mkPostFormData "edited" None None))
     = (RRedirectDetail 1, s_two_posts).
Proof.
  assert (Hne : 2 <> author post_1) by (simpl; lia).
  split; [reflexivity|]. split; [exact Hne|].
  exact (post_edit_non_author_denied s_two_posts 2 1 _ post_1 eq_refl Hne).
Defined.

Lemma post_edit_keeps_author_pub_date_witness :
  find_post s_two_posts 1 = Some post_1
  /\ exists p', find_post (snd (post_edit s_two_posts (Some 1) 1
                                           (Some (mkPostFormData "edited" None None)))) 1
                = Some p'
                /\ post_id p' = post_id post_1 /\ author p' = author post_1
                /\ pub_date p' = pub_date post_1.
Proof.
  split; [reflexivity|].
  apply (post_edit_keeps_author_pub_date s_two_posts _ 1 1
           (Some (mkPostFormData "edited" None None)) post_1
           (fst (post_edit s_two_posts (Some 1) 1 (Some (mkPostFormData "edited" None None))))
           eq_refl eq_refl).
Defined.

Lemma profile_anonymous_not_following_witness :
  find_user_by_username s_two_posts "leo" = Some (mkUser 1 "leo")
  /\ profile s_two_posts None "leo" None
     = RProfile (mkUser 1 "leo") false
         (get_page_context (order_posts (filter (fun p => Nat.eqb (author p) 1) (posts s_two_posts)))
                           None).
Proof.
  split; [reflexivity|].
  exact (profile_anonymous_not_following s_two_posts "leo" None (mkUser 1 "leo") eq_refl).
Defined.

(* ------------------------------------------------------------------ *)
(** * Further properties of the paginator *)

Lemma num_pages_pos (l : list Post) : 1 <= num_pages NUMBER_OF_OUTPUT_POSTS l.
Proof.
  unfold num_pages, NUMBER_OF_OUTPUT_POSTS.
  pose proof (Nat.div_mod_eq (Nat.max 1 (length l) + 10 - 1) 10) as Hd.
  pose proof (Nat.mod_upper_bound (Nat.max 1 (length l) + 10 - 1) 10 ltac:(lia)) as Hm.
  lia.
Qed.

Lemma get_page_context_cases (l : list Post) (pa : option Z) :
  exists k, 1 <= k <= num_pages NUMBER_OF_OUTPUT_POSTS l
            /\ get_page_context l pa = page NUMBER_OF_OUTPUT_POSTS l k.
Proof.
  pose proof (num_pages_pos l) as Hpos.
  unfold get_page_context, get_page, validate_number.
  destruct pa as [z|]; [|exists 1; split; [lia|reflexivity]].
  destruct (z <? 1)%Z eqn:E1; [exists (num_pages NUMBER_OF_OUTPUT_POSTS l); split; [lia|reflexivity]|].
  destruct (Z.of_nat (num_pages NUMBER_OF_OUTPUT_POSTS l) <? z)%Z eqn:E2.
  - destruct (z =? 1)%Z eqn:E3.
    + apply Z.eqb_eq in E3. apply Z.ltb_lt in E2. lia.
    + exists (num_pages NUMBER_OF_OUTPUT_POSTS l). split; [lia|reflexivity].
  - apply Z.ltb_ge in E1, E2. exists (Z.to_nat z). split; [lia|reflexivity].
Qed.

(** The page served is numbered between 1 and [num_pages]; it has a
    previous page exactly when its number exceeds 1, and a next page exactly
    when posts remain after its last one. *)
Theorem get_page_context_flags (l : list Post) (pa : option Z) :
  let pg := get_page_context l pa in
  1 <= number pg <= num_pages NUMBER_OF_OUTPUT_POSTS l
  /\ (has_previous pg = true <-> 1 < number pg)
  /\ (has_next pg = true <-> number pg * NUMBER_OF_OUTPUT_POSTS < length l).
Proof.
  destruct (get_page_context_cases l pa) as [k [Hk ->]]. cbv zeta.
  change (number (page NUMBER_OF_OUTPUT_POSTS l k)) with k.
  change (has_previous (page NUMBER_OF_OUTPUT_POSTS l k)) with (Nat.ltb 1 k).
  change (has_next (page NUMBER_OF_OUTPUT_POSTS l k))
    with (Nat.ltb k (num_pages NUMBER_OF_OUTPUT_POSTS l)).
  split; [exact Hk|]. split; [apply Nat.ltb_lt|].
  rewrite Nat.ltb_lt. unfold num_pages, NUMBER_OF_OUTPUT_POSTS in *.
  pose proof (Nat.div_mod_eq (Nat.max 1 (length l) + 10 - 1) 10) as Hd.
  pose proof (Nat.mod_upper_bound (Nat.max 1 (length l) + 10 - 1) 10 ltac:(lia)) as Hm.
  lia.
Qed.

(** A page number below 1 or beyond the last page gives the last page:
    [?page=0] and negative numbers land on the last page, not the first. *)
Theorem get_page_context_out_of_range (l : list Post) (z : Z) :
  (z < 1 \/ Z.of_nat (num_pages NUMBER_OF_OUTPUT_POSTS l) < z)%Z ->
  get_page_context l (Some z) = page NUMBER_OF_OUTPUT_POSTS l (num_pages NUMBER_OF_OUTPUT_POSTS l).
Proof.
  intros Hz. pose proof (num_pages_pos l) as Hpos.
  unfold get_page_context, get_page, validate_number.
  destruct (z <? 1)%Z eqn:E1; [reflexivity|]. apply Z.ltb_ge in E1.
  destruct (Z.of_nat (num_pages NUMBER_OF_OUTPUT_POSTS l) <? z)%Z eqn:E2;
    [|apply Z.ltb_ge in E2; lia].
  destruct (z =? 1)%Z eqn:E3; [apply Z.eqb_eq in E3; lia|reflexivity].
Qed.

Lemma get_page_context_out_of_range_witness :
  (0 < 1 \/ Z.of_nat (num_pages NUMBER_OF_OUTPUT_POSTS (all_posts s_two_posts)) < 0)%Z
  /\ object_list (get_page_context (all_posts s_two_posts) (Some 0%Z)) = [post_2; post_1].
Proof.
  assert (H : (0 < 1 \/ Z.of_nat (num_pages NUMBER_OF_OUTPUT_POSTS (all_posts s_two_posts)) < 0)%Z)
    by (left; lia).
  split; [exact H|].
  rewrite (get_page_context_out_of_range (all_posts s_two_posts) 0 H). reflexivity.
Defined.

(** An empty feed is one empty page 1, with count 0 and neither a previous
    nor a next page, whatever page is asked for. *)
Theorem get_page_context_empty (pa : option Z) :
  get_page_context [] pa = mkPage [] 1 0 false false.
Proof.
  unfold get_page_context, get_page, validate_number.
  destruct pa as [z|]; [|reflexivity].
  destruct (z <? 1)%Z eqn:E1; [reflexivity|]. apply Z.ltb_ge in E1.
  destruct (Z.of_nat (num_pages NUMBER_OF_OUTPUT_POSTS []) <? z)%Z eqn:E2.
  - destruct (z =? 1)%Z; reflexivity.
  - apply Z.ltb_ge in E2. change (num_pages NUMBER_OF_OUTPUT_POSTS []) with 1 in E2.
    replace (Z.to_nat z) with 1 by lia.
    reflexivity.
Qed.

(* ------------------------------------------------------------------ *)
(** * Further properties of the feeds *)

Lemma in_firstn_l {A} (x : A) (n : nat) (l : list A) : In x (firstn n l) -> In x l.
Proof. intros H. rewrite <- (firstn_skipn n l). apply in_or_app. left. exact H. Qed.

Lemma in_skipn_l {A} (x : A) (n : nat) (l : list A) : In x (skipn n l) -> In x l.
Proof. intros H. rewrite <- (firstn_skipn n l). apply in_or_app. right. exact H. Qed.

Lemma get_page_context_in (l : list Post) (pa : option Z) (x : Post) :
  In x (object_list (get_page_context l pa)) -> In x l.
Proof.
  destruct (get_page_context_cases l pa) as [k [_ ->]]. rewrite page_items.
  intros H. apply in_firstn_l, in_skipn_l in H. exact H.
Qed.

Lemma get_page_context_count (l : list Post) (pa : option Z) :
  count (get_page_context l pa) = length l.
Proof. destruct (get_page_context_cases l pa) as [k [_ ->]]. reflexivity. Qed.

Lemma in_order_posts (l : list Post) (x : Post) : In x (order_posts l) <-> In x l.
Proof.
  pose proof (order_desc_perm Post pub_date l) as Hp. unfold order_posts.
  split; apply Permutation_in; [apply Permutation_sym, Hp|exact Hp].
Qed.

(** The group page: an unknown slug is "not found"; a known one pages
    over exactly the posts of that group, each shown post belonging to it. *)
Theorem group_posts_feed (s : Store) (sl : string) (pa : option Z) :
  match find_group_by_slug s sl with
  | None => group_posts s sl pa = RNotFound
  | Some g =>
      exists pg, group_posts s sl pa = RGroup g pg
        /\ count pg = length (filter (fun p => opt_nat_eqb (group p) (Some (group_id g))) (posts s))
        /\ (forall p, In p (object_list pg) -> In p (posts s) /\ group p = Some (group_id g))
  end.
Proof.
  unfold group_posts. destruct (find_group_by_slug s sl) as [g|]; [|reflexivity].
  eexists. split; [reflexivity|]. split.
  - rewrite get_page_context_count. unfold order_posts.
    apply Permutation_length, Permutation_sym, order_desc_perm.
  - intros p Hp. apply get_page_context_in, in_order_posts, filter_In in Hp as [Hp Hg].
    split; [exact Hp|]. destruct (group p) as [x|]; [|discriminate].
    apply Nat.eqb_eq in Hg. subst. reflexivity.
Qed.

(** The profile page: an unknown username is "not found"; otherwise the
    [following] flag is set exactly when a follow row goes from the
    requesting user to the author, and the page shows that author's posts. *)
Theorem profile_page (s : Store) (req : Req) (n : string) (pa : option Z) :
  match find_user_by_username s n with
  | None => profile s req n pa = RNotFound
  | Some a =>
      exists following pg, profile s req n pa = RProfile a following pg
        /\ (following = true <->
            exists f, In f (follows s) /\ req = Some (f_user f) /\ f_author f = uid a)
        /\ count pg = length (filter (fun p => Nat.eqb (author p) (uid a)) (posts s))
        /\ (forall p, In p (object_list pg) -> In p (posts s) /\ author p = uid a)
  end.
Proof.
  unfold profile. destruct (find_user_by_username s n) as [a|]; [|reflexivity].
  eexists. eexists. split; [reflexivity|]. split; [|split].
  - rewrite existsb_exists. split.
    + intros [f [Hf E]]. apply andb_true_iff in E as [E1 E2].
      exists f. split; [exact Hf|]. split; [|apply Nat.eqb_eq, E2].
      destruct req as [u|]; [|discriminate]. simpl in E1. apply Nat.eqb_eq in E1. congruence.
    + intros [f [Hf [-> E2]]]. exists f. split; [exact Hf|].
      simpl. rewrite Nat.eqb_refl, E2, Nat.eqb_refl. reflexivity.
  - rewrite get_page_context_count. unfold order_posts.
    apply Permutation_length, Permutation_sym, order_desc_perm.
  - intros p Hp. apply get_page_context_in, in_order_posts, filter_In in Hp as [Hp Ha].
    split; [exact Hp|]. apply Nat.eqb_eq, Ha.
Qed.

Lemma in_follow_feed (s : Store) (u : nat) (p : Post) :
  In p (follow_feed s u)
  <-> In p (posts s) /\ exists f, In f (follows s) /\ f_user f = u /\ f_author f = author p.
Proof.
  unfold follow_feed. rewrite in_order_posts, filter_In, existsb_exists.
  split.
  - intros [Hp [x [Hx E]]]. split; [exact Hp|].
    apply in_map_iff in Hx as [f [<- Hf]]. apply filter_In in Hf as [Hf Eu].
    exists f. apply Nat.eqb_eq in Eu, E. auto.
  - intros [Hp [f [Hf [Eu Ea]]]]. split; [exact Hp|].
    exists (f_author f). split; [|rewrite Ea; apply Nat.eqb_refl].
    apply in_map. apply filter_In. split; [exact Hf|]. apply Nat.eqb_eq, Eu.
Qed.

(** The follow page: anonymous visitors go to the login page; a user's
    page pages over exactly the posts whose author that user follows. *)
Theorem follow_index_feed (s : Store) (pa : option Z) :
  follow_index s None pa = RRedirectLogin
  /\ forall u, follow_index s (Some u) pa = RFollowIndex (get_page_context (follow_feed s u) pa)
       /\ (forall p, In p (follow_feed s u)
                     <-> In p (posts s)
                         /\ exists f, In f (follows s) /\ f_user f = u /\ f_author f = author p).
Proof.
  split; [reflexivity|]. intros u. split; [reflexivity|]. apply in_follow_feed.
Qed.

(* ------------------------------------------------------------------ *)
(** * Further properties of following *)

(** [profile_follow] either leaves the store as it is or appends the one
    row (user, author) for an existing author other than the user, when no
    such row was there. *)
Theorem profile_follow_effect (s : Store) (req : Req) (n : string) :
  snd (profile_follow s req n) = s
  \/ exists u a, req = Some u /\ find_user_by_username s n = Some a /\ uid a <> u
                 /\ count_pair u (uid a) s = 0
                 /\ profile_follow s req n = (RRedirectProfile n, insert_follow s (mkFollow u (uid a))).
Proof.
  unfold profile_follow, get_or_create.
  destruct req as [u|]; [|left; reflexivity].
  destruct (find_user_by_username s n) as [a|] eqn:Ha; [|left; reflexivity].
  destruct (negb (Nat.eqb (uid a) u)) eqn:Ea; [|left; reflexivity].
  apply negb_true_iff, Nat.eqb_neq in Ea.
  destruct (follow_rows u (uid a) (follows s)) as [|f [|f' r]] eqn:Er; try (left; reflexivity).
  right. exists u, a. repeat split; try assumption.
  unfold count_pair. rewrite Er. reflexivity.
Qed.

(** Once a pair has two rows (see the concurrent interleaving above),
    every further follow request for it fails in [get_or_create] with
    [MultipleObjectsReturned], and the store is left as it is. *)
Theorem profile_follow_duplicate_error (s : Store) (u : nat) (n : string) (a : User) :
  find_user_by_username s n = Some a -> uid a <> u -> 2 <= count_pair u (uid a) s ->
  profile_follow s (Some u) n = (RServerError, s).
Proof.
  intros Ha Hne H2. unfold profile_follow, get_or_create. rewrite Ha.
  assert (E : negb (Nat.eqb (uid a) u) = true) by (apply negb_true_iff, Nat.eqb_neq; exact Hne).
  rewrite E. unfold count_pair in H2. revert H2.
  destruct (follow_rows u (uid a) (follows s)) as [|f [|f' r]]; simpl; intros H2;
    [lia|lia|reflexivity].
Qed.

Definition s_duplicate_rows : Store :=
  mkStore [mkUser 1 "leo"; mkUser 2 "tolstoy"] [] [] [] [mkFollow 1 2; mkFollow 1 2].

Lemma profile_follow_duplicate_error_witness :
  find_user_by_username s_duplicate_rows "tolstoy" = Some (mkUser 2 "tolstoy")
  /\ 2 <> 1 /\ 2 <= count_pair 1 2 s_duplicate_rows
  /\ profile_follow s_duplicate_rows (Some 1) "tolstoy" = (RServerError, s_duplicate_rows).
Proof.
  assert (Hne : 2 <> 1) by lia. assert (H2 : 2 <= count_pair 1 2 s_duplicate_rows)
    by (change (count_pair 1 2 s_duplicate_rows) with 2; lia).
  split; [reflexivity|]. split; [exact Hne|]. split; [exact H2|].
  exact (profile_follow_duplicate_error s_duplicate_rows 1 "tolstoy" (mkUser 2 "tolstoy")
           eq_refl Hne H2).
Defined.

Lemma find_unique_uid (l : list User) (a : User) :
  NoDup (map uid l) -> In a l -> find (fun u => Nat.eqb (uid u) (uid a)) l = Some a.
Proof.
  induction l as [|y l IH]; intros Hnd Ha; [destruct Ha|].
  simpl in Hnd. inversion Hnd as [|? ? Hnot Hnd']; subst. simpl.
  destruct Ha as [<-|Ha]; [rewrite Nat.eqb_refl; reflexivity|].
  destruct (Nat.eqb (uid y) (uid a)) eqn:E.
  - apply Nat.eqb_eq in E. exfalso. apply Hnot. rewrite E. apply in_map, Ha.
  - apply IH; assumption.
Qed.

(** With user ids and usernames unique, the [author__username] delete
    removes exactly the rows (user, author) and keeps every other row. *)
Lemma profile_unfollow_rows (s : Store) (u : nat) (n : string) (a : User) :
  NoDup (map uid (users s)) -> NoDup (map username (users s)) ->
  find_user_by_username s n = Some a ->
  follows (snd (profile_unfollow s (Some u) n))
  = filter (fun f => negb (Nat.eqb (f_user f) u && Nat.eqb (f_author f) (uid a))) (follows s).
Proof.
  intros Hid Hnd Ha. simpl. apply filter_ext_in. intros f _. f_equal. f_equal.
  destruct (Nat.eqb (f_author f) (uid a)) eqn:E.
  - apply Nat.eqb_eq in E. rewrite E. unfold username_of.
    pose proof Ha as Ha'. unfold find_user_by_username in Ha'.
    apply find_some in Ha' as [Hin En]. apply String.eqb_eq in En.
    rewrite (find_unique_uid (users s) a Hid Hin). simpl. rewrite En, String.eqb_refl.
    reflexivity.
  - destruct (username_of s (f_author f)) as [m|] eqn:Em; [|reflexivity]. simpl.
    destruct (String.eqb m n) eqn:Emn; [|reflexivity].
    apply String.eqb_eq in Emn. subst m.
    rewrite (username_of_lookup s (f_author f) n a Hnd Ha Em), Nat.eqb_refl in E.
    discriminate.
Qed.

(** [profile_unfollow] removes exactly the rows from the user to the author
    and keeps all others; afterwards the user does not follow the author. *)
Theorem profile_unfollow_effect (s : Store) (u : nat) (n : string) (a : User) :
  NoDup (map uid (users s)) -> NoDup (map username (users s)) ->
  find_user_by_username s n = Some a ->
  (forall f, In f (follows (snd (profile_unfollow s (Some u) n)))
             <-> In f (follows s) /\ ~ (f_user f = u /\ f_author f = uid a))
  /\ count_pair u (uid a) (snd (profile_unfollow s (Some u) n)) = 0.
Proof.
  intros Hid Hnd Ha. rewrite (profile_unfollow_rows s u n a Hid Hnd Ha). split.
  - intros f. rewrite filter_In, negb_true_iff, andb_false_iff, !Nat.eqb_neq.
    split; intros [Hf H]; split; try exact Hf; [tauto|].
    destruct (Nat.eq_dec (f_user f) u); [right|left]; tauto.
  - unfold count_pair. rewrite (profile_unfollow_rows s u n a Hid Hnd Ha).
    apply length_zero_iff_nil, follow_rows_nil_iff.
    intros f Hf [E1 E2]. apply filter_In in Hf as [_ Hf].
    rewrite E1, E2, !Nat.eqb_refl in Hf. discriminate.
Qed.

Lemma profile_unfollow_effect_witness :
  NoDup (map uid (users s_duplicate_rows)) /\ NoDup (map username (users s_duplicate_rows))
  /\ find_user_by_username s_duplicate_rows "tolstoy" = Some (mkUser 2 "tolstoy")
  /\ count_pair 1 2 (snd (profile_unfollow s_duplicate_rows (Some 1) "tolstoy")) = 0.
Proof.
  assert (H1 : NoDup (map uid (users s_duplicate_rows))).
  { simpl. constructor; [simpl; intros [H|[]]; discriminate H|].
    constructor; [intros []|constructor]. }
  assert (H2 : NoDup (map username (users s_duplicate_rows))).
  { simpl. constructor; [simpl; intros [H|[]]; discriminate H|].
    constructor; [intros []|constructor]. }
  split; [exact H1|]. split; [exact H2|]. split; [reflexivity|].
  exact (proj2 (profile_unfollow_effect s_duplicate_rows 1 "tolstoy" (mkUser 2 "tolstoy")
                  H1 H2 eq_refl)).
Defined.

(** Unlike [profile_follow], [profile_unfollow] does not look the author
    up: an unknown username is no error, only a redirect, and the store is
    left as it is. *)
Theorem profile_unfollow_unknown_user (s : Store) (u : nat) (n : string) :
  find_user_by_username s n = None ->
  profile_unfollow s (Some u) n = (RRedirectProfile n, s)
  /\ profile_follow s (Some u) n = (RNotFound, s).
Proof.
  intros Hn. split; [|unfold profile_follow; rewrite Hn; reflexivity].
  unfold profile_unfollow. rewrite filter_keeps_all; [rewrite with_follows_same; reflexivity|].
  intros f _. apply negb_true_iff.
  destruct (Nat.eqb (f_user f) u); [|reflexivity]. simpl.
  unfold username_of.
  destruct (find (fun y => Nat.eqb (uid y) (f_author f)) (users s)) as [y|] eqn:Ey;
    [|reflexivity].
  simpl. destruct (String.eqb (username y) n) eqn:En; [|reflexivity].
  apply find_some in Ey as [Hy _].
  unfold find_user_by_username in Hn.
  pose proof (find_none _ _ Hn y Hy) as Hc. simpl in Hc. congruence.
Qed.

Lemma profile_unfollow_unknown_user_witness :
  find_user_by_username s_two_users "pushkin" = None
  /\ profile_unfollow s_two_users (Some 1) "pushkin" = (RRedirectProfile "pushkin", s_two_users).
Proof.
  split; [reflexivity|].
  exact (proj1 (profile_unfollow_unknown_user s_two_users 1 "pushkin" eq_refl)).
Defined.

(** Following an author one did not follow and then unfollowing them gives
    back the store one started from. *)
Theorem follow_unfollow_roundtrip (s : Store) (u : nat) (n : string) (a : User) :
  NoDup (map uid (users s)) -> NoDup (map username (users s)) ->
  find_user_by_username s n = Some a -> uid a <> u -> count_pair u (uid a) s = 0 ->
  profile_unfollow (snd (profile_follow s (Some u) n)) (Some u) n = (RRedirectProfile n, s).
Proof.
  intros Hid Hnd Ha Hne H0.
  unfold count_pair in H0. apply length_zero_iff_nil in H0.
  assert (Hf : profile_follow s (Some u) n
               = (RRedirectProfile n, insert_follow s (mkFollow u (uid a)))).
  { unfold profile_follow, get_or_create. rewrite Ha.
    assert (E : negb (Nat.eqb (uid a) u) = true) by (apply negb_true_iff, Nat.eqb_neq; exact Hne).
    rewrite E, H0. reflexivity. }
  rewrite Hf. simpl snd.
  set (s1 := insert_follow s (mkFollow u (uid a))).
  transitivity (RRedirectProfile n, with_follows s1 (follows (snd (profile_unfollow s1 (Some u) n))));
    [reflexivity|].
  rewrite (profile_unfollow_rows s1 u n a Hid Hnd Ha).
  unfold s1, insert_follow, with_follows. simpl follows.
  rewrite filter_app. simpl. rewrite !Nat.eqb_refl. simpl. rewrite app_nil_r.
  rewrite filter_keeps_all.
  - destruct s; reflexivity.
  - intros f Hin. apply negb_true_iff.
    destruct (Nat.eqb (f_user f) u) eqn:E1; destruct (Nat.eqb (f_author f) (uid a)) eqn:E2;
      try reflexivity.
    apply Nat.eqb_eq in E1, E2. exfalso.
    apply (proj1 (follow_rows_nil_iff u (uid a) (follows s)) H0 f Hin). split; assumption.
Qed.

Lemma follow_unfollow_roundtrip_witness :
  NoDup (map uid (users s_two_users)) /\ NoDup (map username (users s_two_users))
  /\ find_user_by_username s_two_users "tolstoy" = Some (mkUser 2 "tolstoy")
  /\ 2 <> 1 /\ count_pair 1 2 s_two_users = 0
  /\ profile_unfollow (snd (profile_follow s_two_users (Some 1) "tolstoy")) (Some 1) "tolstoy"
     = (RRedirectProfile "tolstoy", s_two_users).
Proof.
  assert (H1 : NoDup (map uid (users s_two_users))).
  { simpl. constructor; [simpl; intros [H|[]]; discriminate H|].
    constructor; [intros []|constructor]. }
  assert (H2 : NoDup (map username (users s_two_users))).
  { simpl. constructor; [simpl; intros [H|[]]; discriminate H|].
    constructor; [intros []|constructor]. }
  assert (Hne : 2 <> 1) by lia.
  split; [exact H1|]. split; [exact H2|]. split; [reflexivity|]. split; [exact Hne|].
  split; [reflexivity|].
  exact (follow_unfollow_roundtrip s_two_users 1 "tolstoy" (mkUser 2 "tolstoy")
           H1 H2 eq_refl Hne eq_refl).
Defined.

Lemma profile_follow_posts (s : Store) (req : Req) (n : string) :
  posts (snd (profile_follow s req n)) = posts s.
Proof.
  unfold profile_follow, get_or_create.
  destruct req as [u|]; [|reflexivity].
  destruct (find_user_by_username s n) as [a|]; [|reflexivity].
  destruct (negb (Nat.eqb (uid a) u)); [|reflexivity].
  destruct (follow_rows u (uid a) (follows s)) as [|? [|? ?]]; reflexivity.
Qed.

(** After following an author (on a store reached by requests served one
    at a time), every post of that author is in the user's follow feed. *)
Theorem follow_then_follow_feed (s : Store) (u : nat) (n : string) (a : User) (p : Post) :
  seq_reachable s -> find_user_by_username s n = Some a -> uid a <> u ->
  In p (posts s) -> author p = uid a ->
  In p (follow_feed (snd (profile_follow s (Some u) n)) u).
Proof.
  intros Hr Ha Hne Hp Hap.
  pose proof (profile_follow_once s u n a (seq_reachable_inv s Hr) Ha Hne) as H1.
  apply in_follow_feed. rewrite profile_follow_posts. split; [exact Hp|].
  unfold count_pair in H1.
  destruct (follow_rows u (uid a) (follows (snd (profile_follow s (Some u) n)))) as [|f r] eqn:Er;
    [discriminate|].
  assert (Hf : In f (follow_rows u (uid a) (follows (snd (profile_follow s (Some u) n)))))
    by (rewrite Er; left; reflexivity).
  apply filter_In in Hf as [Hf E]. apply andb_true_iff in E as [E1 E2].
  apply Nat.eqb_eq in E1, E2. exists f. rewrite Hap. auto.
Qed.

Definition post_3 : Post := mkPost 3 "third" 12 2 None "".

Definition s_two_posts_two_users : Store :=
  mkStore [mkUser 1 "leo"; mkUser 2 "tolstoy"] []
          [post_1; post_3] [] [].

Lemma follow_then_follow_feed_witness :
  seq_reachable s_two_posts_two_users
  /\ In post_3 (follow_feed (snd (profile_follow s_two_posts_two_users (Some 1) "tolstoy")) 1).
Proof.
  assert (Hr : seq_reachable s_two_posts_two_users) by (apply seq_init; reflexivity).
  split; [exact Hr|].
  apply (follow_then_follow_feed s_two_posts_two_users 1 "tolstoy" (mkUser 2 "tolstoy") post_3
           Hr eq_refl).
  - cbn. lia.
  - right. left. reflexivity.
  - reflexivity.
Defined.

(* ------------------------------------------------------------------ *)
(** * Further properties of posts and comments *)

Lemma find_post_save_other (l : list Post) (pid q : nat) (p' : Post) :
  q <> pid ->
  find (fun x => Nat.eqb (post_id x) q)
       (map (fun x => if Nat.eqb (post_id x) pid then p' else x) l)
  = find (fun x => Nat.eqb (post_id x) q) l
  \/ post_id p' = q.
Proof.
  intros Hq. destruct (Nat.eq_dec (post_id p') q) as [E|E]; [right; exact E|left].
  induction l as [|x l IH]; simpl; [reflexivity|].
  destruct (Nat.eqb (post_id x) pid) eqn:Ex.
  - apply Nat.eqb_eq in Ex.
    assert (Hxq : Nat.eqb (post_id x) q = false) by (apply Nat.eqb_neq; congruence).
    assert (Hpq : Nat.eqb (post_id p') q = false) by (apply Nat.eqb_neq; exact E).
    rewrite Hxq, Hpq. exact IH.
  - destruct (Nat.eqb (post_id x) q); [reflexivity|exact IH].
Qed.

(** Whatever [post_edit] does, users, groups, comments and follow rows stay
    as they are, and every post with another id is found as before. *)
Theorem post_edit_frame (s : Store) (req : Req) (pid : nat) (d : option PostFormData) :
  let s' := snd (post_edit s req pid d) in
  users s' = users s /\ groups s' = groups s /\ comments s' = comments s
  /\ follows s' = follows s
  /\ (forall q, q <> pid -> find_post s' q = find_post s q).
Proof.
  unfold post_edit. cbv zeta.
  destruct req as [u|]; [|repeat split; reflexivity].
  destruct (find_post s pid) as [p|] eqn:Hp; [|repeat split; reflexivity].
  destruct (negb (Nat.eqb u (author p))); [repeat split; reflexivity|].
  destruct d as [fd|]; [|repeat split; reflexivity].
  destruct (postform_is_valid s fd); [|repeat split; reflexivity].
  simpl. repeat split. intros q Hq.
  assert (Hid : post_id p = pid).
  { unfold find_post in Hp. apply find_some in Hp as [_ Hp]. apply Nat.eqb_eq, Hp. }
  unfold find_post; simpl. rewrite Hid.
  destruct (find_post_save_other (posts s) pid q (postform_save p fd) Hq) as [H|H];
    [exact H|]. simpl in H. congruence.
Qed.

(** A valid [post_create] by a logged-in user appends one post: written by
    that user, stamped with the current time, with the form's text, under
    the new id; the user is sent to their profile.  When the post is newer
    than all others it is on the first page of the index. *)
Theorem post_create_valid (s : Store) (u : nat) (fd : PostFormData) (new_id now : nat) :
  postform_is_valid s fd = true ->
  exists p, post_create s (Some u) (Some fd) new_id now
            = (CRedirectProfile u, with_posts s (posts s ++ [p]))
    /\ post_id p = new_id /\ author p = u /\ pub_date p = now /\ text p = fd_text fd
    /\ group p = fd_group fd
    /\ ((forall q, In q (posts s) -> pub_date q < now) ->
        exists pg, index (with_posts s (posts s ++ [p])) None = RIndex pg
                   /\ In p (object_list pg)).
Proof.
  intros Hv. unfold post_create. rewrite Hv.
  eexists. split; [reflexivity|]. simpl. repeat split.
  intros H. apply index_first_page_newest. simpl. exact H.
Qed.

Lemma post_create_valid_witness :
  postform_is_valid s_two_posts (mkPostFormData "new" None None) = true
  /\ exists p, post_create s_two_posts (Some 1) (Some (mkPostFormData "new" None None)) 3 30
               = (CRedirectProfile 1, with_posts s_two_posts (posts s_two_posts ++ [p]))
               /\ author p = 1 /\ pub_date p = 30.
Proof.
  split; [reflexivity|].
  destruct (post_create_valid s_two_posts 1 (mkPostFormData "new" None None) 3 30 eq_refl)
    as [p [H1 [_ [H2 [H3 _]]]]].
  exists p. auto.
Defined.

(** [add_comment]: anonymous visitors go to the login page; an unknown
    post is "not found"; otherwise the answer is always the redirect to the
    post, and the store either stays as it is or gains exactly one comment
    on that post by that user. *)
Theorem add_comment_effect (s : Store) (pid : nat) (d : option string) (new_id now : nat) :
  add_comment s None pid d new_id now = (RRedirectLogin, s)
  /\ forall u,
     match find_post s pid with
     | None => add_comment s (Some u) pid d new_id now = (RNotFound, s)
     | Some _ =>
         fst (add_comment s (Some u) pid d new_id now) = RRedirectDetail pid
         /\ (snd (add_comment s (Some u) pid d new_id now) = s
             \/ exists txt, d = Some txt /\ commentform_is_valid txt = true
                 /\ snd (add_comment s (Some u) pid d new_id now)
                    = with_comments s (comments s ++ [mkComment new_id pid u txt now]))
     end.
Proof.
  split; [reflexivity|]. intros u. unfold add_comment.
  destruct (find_post s pid) as [p|] eqn:Hp; [|reflexivity].
  assert (Hid : post_id p = pid).
  { unfold find_post in Hp. apply find_some in Hp as [_ Hp]. apply Nat.eqb_eq, Hp. }
  destruct d as [txt|]; [|split; [reflexivity|left; reflexivity]].
  destruct (commentform_is_valid txt) eqn:Hv; [|split; [reflexivity|left; reflexivity]].
  split; [reflexivity|]. right. exists txt. rewrite Hid. auto.
Qed.

Definition created_desc (c d : Comment) : Prop := created d <= created c.

(** The post page: an unknown id is "not found"; otherwise the comments
    shown are the stored ones, each once, newest first. *)
Theorem post_detail_comments (s : Store) (pid : nat) :
  match find_post s pid with
  | None => post_detail s pid = RNotFound
  | Some p => exists cs, post_detail s pid = RDetail p cs
                         /\ Sorted created_desc cs /\ Permutation (comments s) cs
  end.
Proof.
  unfold post_detail. destruct (find_post s pid) as [p|]; [|reflexivity].
  eexists. split; [reflexivity|]. split.
  - exact (order_desc_sorted Comment created (comments s)).
  - exact (order_desc_perm Comment created (comments s)).
Qed.

(** A comment added to a post shows on that post's page. *)
Theorem add_comment_shown (s : Store) (u pid : nat) (txt : string) (new_id now : nat) (p : Post) :
  find_post s pid = Some p -> commentform_is_valid txt = true ->
  exists cs, post_detail (snd (add_comment s (Some u) pid (Some txt) new_id now)) pid = RDetail p cs
             /\ In (mkComment new_id pid u txt now) cs
             /\ length cs = S (length (comments s)).
Proof.
  intros Hp Hv.
  assert (Hid : post_id p = pid).
  { unfold find_post in Hp. apply find_some in Hp as [_ Hp']. apply Nat.eqb_eq, Hp'. }
  unfold add_comment. rewrite Hp, Hv. simpl.
  unfold post_detail, find_post. simpl. fold (find_post s pid). rewrite Hp.
  eexists. split; [reflexivity|]. rewrite Hid.
  pose proof (order_desc_perm Comment created (comments s ++ [mkComment new_id pid u txt now])) as Hperm.
  split.
  - apply (Permutation_in _ Hperm). apply in_or_app. right. left. reflexivity.
  - unfold order_comments. rewrite <- (Permutation_length Hperm), length_app. simpl. lia.
Qed.

Lemma add_comment_shown_witness :
  find_post s_two_posts 1 = Some post_1 /\ commentform_is_valid "nice" = true
  /\ exists cs, post_detail (snd (add_comment s_two_posts (Some 1) 1 (Some "nice"%string) 3 30)) 1
                = RDetail post_1 cs
                /\ In (mkComment 3 1 1 "nice" 30) cs.
Proof.
  split; [reflexivity|]. split; [reflexivity|].
  destruct (add_comment_shown s_two_posts 1 1 "nice" 3 30 post_1 eq_refl eq_refl)
    as [cs [H1 [H2 _]]].
  exists cs. auto.
Defined.
